(** * Coulomb wave-function engine (meta_numerics): data model and contracts

    A shallow embedding of the declarations of [meta_numerics.hh]: the
    binary64 values the interface passes around, the ODE stepper with its
    accuracy setter and its counted right-hand-side evaluation, the
    [SolutionPair] value class, the table of the Bernoulli numbers and the
    sign function; and of the indexed accessors of [marley/Event.hh]. *)

From Stdlib Require Import ZArith NArith Bool List Lia QArith Qabs.
From Stdlib Require Import Floats.SpecFloat.
Import ListNotations.

Local Open Scope Z_scope.

(** ** C++ [double] as an IEEE 754 binary64 datum *)

Module Double.

Definition prec : Z := 53.
Definition emax : Z := 1024.

(** A [double] is a binary64 datum; NaN carries no payload. *)
Definition double : Type := spec_float.

(** The data that really are binary64 values (canonical mantissa, exponent
    in range). *)
Definition is_double (x : double) : bool := valid_binary prec emax x.

Definition is_nan (x : double) : bool :=
  match x with S754_nan => true | _ => false end.

(** The C++ comparison operators on [double]; every comparison with a NaN
    is false. *)
Definition lt (x y : double) : bool := SFltb x y.
Definition le (x y : double) : bool := SFleb x y.
Definition gt (x y : double) : bool := SFltb y x.
Definition ge (x y : double) : bool := SFleb y x.

(** [pow2 e] is the double 2^e, for an exponent of the normal range. *)
Definition pow2 (e : Z) : double := S754_finite false 4503599627370496 (e - 52).

Definition zero : double := S754_zero false.
Definition one : double := pow2 0.

(** The integer [n * 2^1074] for the finite double of value [n]: the
    doubles embed in the integers in the order of their values (the
    infinities are sent beyond every finite double). *)
Definition scaled (x : double) : Z :=
  match x with
  | S754_zero _ => 0
  | S754_nan => 0
  | S754_infinity s => cond_Zopp s (2 ^ 2100)
  | S754_finite s m e => cond_Zopp s (Zpos m * 2 ^ (e + 1074))
  end.

End Double.

Import Double.

(** ** Constants of the header *)

(** [constexpr int SeriesMax = 250]: maximum number of iterations of a
    series. *)
Definition SeriesMax : Z := 250.

(** [constexpr double MaxAccuracy = std::pow(2.0, -49)]. *)
Definition MaxAccuracy : double := pow2 (-49).

(** ** C++ [int] *)


(** Two's complement wrap-around into the range of [int]. *)
Definition wrap_int (z : Z) : Z := (z + 2 ^ 31) mod 2 ^ 32 - 2 ^ 31.

(** [template <typename T> inline int sign(T val)], at [T = double]:
    [(T(0) < val) - (val < T(0))]. *)
Definition sign (val : double) : Z :=
  Z.b2z (lt zero val) - Z.b2z (lt val zero).

(** ** Exceptions

    The header throws [std::runtime_error] with a message built from the
    offending value; the message is kept structured. The two other errors
    are the kinds the specification names for the code that is not in the
    header: the domain error of the dispatch, which carries the offending
    arguments, and the convergence failure of an iterative primitive. *)

Inductive exn : Type :=
| Invalid_accuracy_value (value : double)
    (* "Invalid accuracy value <value> encountered in OdeStepper::Accuracy" *)
| Domain_error (L : Z) (rho : double)
| Nonconvergence.

Inductive outcome (A : Type) : Type :=
| Returns (a : A)
| Throws (e : exn).

Arguments Returns {A} a.
Arguments Throws {A} e.

(** ** The ODE stepper *)

(** What a [std::function<double(double, double)>] holds: a target, whose
    call returns a double or throws ([None]). *)
Definition target : Type := double -> double -> option double.

(** A [std::function<double(double, double)>] is empty ([None]), as it is
    when default-constructed, or holds a target. *)
Definition std_function : Type := option target.

(** The fields [class OdeStepper] declares: the public [X], [Y], [DeltaX],
    [accuracy] and [RightHandSide], and the protected [count]. The class
    declares no constructor and no initialiser for any of them. *)
Record OdeStepper : Type := mkOdeStepper {
  X : double;
  Y : double;
  DeltaX : double;
  accuracy : double;
  RightHandSide : std_function;
  count : Z
}.

(** [inline int EvaluationCount() { return count; }] *)
Definition EvaluationCount (s : OdeStepper) : Z := count s.

Definition with_accuracy (value : double) (s : OdeStepper) : OdeStepper :=
  mkOdeStepper (X s) (Y s) (DeltaX s) value (RightHandSide s) (count s).

Definition with_count (c : Z) (s : OdeStepper) : OdeStepper :=
  mkOdeStepper (X s) (Y s) (DeltaX s) (accuracy s) (RightHandSide s) c.

(** [[
      inline void set_accuracy(double value) {
        if ((value < MaxAccuracy) || (value >= 1.0))
        throw std::runtime_error(...);
        accuracy = value;
      }
    ]]
    A member function maps the object before the call to the outcome of the
    call and the object after it: a throw leaves the object as it was. *)
Definition set_accuracy (value : double) (s : OdeStepper)
  : outcome unit * OdeStepper :=
  if lt value MaxAccuracy || ge value one
  then (Throws (Invalid_accuracy_value value), s)
  else (Returns tt, with_accuracy value s).

(** The interval of the accuracy values as the specification words it: the
    open interval (2^-49, 1). *)
Definition in_open_interval (value : double) : bool :=
  lt MaxAccuracy value && lt value one.

(** The interval the guard of [set_accuracy] accepts: 2^-49 <= value < 1. *)
Definition in_half_open_interval (value : double) : bool :=
  le MaxAccuracy value && lt value one.

(** A stepper to run the examples on: all fields zero, the right-hand side
    of the equation y'' = -y. *)
Definition stepper0 : OdeStepper :=
  mkOdeStepper zero zero zero zero (Some (fun _ y => Some (SFopp y))) 0.

(** ** Counted evaluation of the right-hand side *)

(** What one stepper does is observed on the stepper together with the log
    of the calls of its [RightHandSide] member, oldest first. The log is
    not a field of the class: every call [RightHandSide(x, y)] of the
    [std::function] is recorded, also one that throws. *)
Record world : Type := mkWorld {
  stepper : OdeStepper;
  calls : list (double * double)
}.

(** How a call that goes through the [std::function] ends. *)
Inductive evaluation : Type :=
| Value (r : double)
| Target_throws
| Bad_function_call.

(** A call [RightHandSide(x, y)] of the stored function: an empty function
    throws [std::bad_function_call], an exception of the target
    propagates. *)
Definition invoke_RightHandSide (x y : double) (w : world)
  : evaluation * world :=
  (match RightHandSide (stepper w) with
   | None => Bad_function_call
   | Some f =>
       match f x y with
       | Some r => Value r
       | None => Target_throws
       end
   end,
   mkWorld (stepper w) (calls w ++ [(x, y)])).

(** [[
      inline double Evaluate (double x, double y) {
        count++;
        return (RightHandSide(x, y));
      }
    ]]
    The counter is incremented before the call, so it stays incremented
    when the call throws. *)
Definition Evaluate (x y : double) (w : world) : evaluation * world :=
  let s := stepper w in
  invoke_RightHandSide x y
    (mkWorld (with_count (wrap_int (count s + 1)) s) (calls w)).

(** ** Operations on a stepper

    The bodies of [Integrate] and of the overriding [Step] are not in the
    header. What any code can do to a stepper is a sequence of the
    operations the class offers: to everyone the assignments of the public
    fields, [set_accuracy], [EvaluationCount] and the direct call of the
    public [RightHandSide]; to a derived class also [Evaluate] and the
    assignment of the protected [count]. *)



Definition with_RightHandSide (f : std_function) (s : OdeStepper) : OdeStepper :=
  mkOdeStepper (X s) (Y s) (DeltaX s) (accuracy s) f (count s).










(** ** SolutionPair *)

(** [class SolutionPair]: the private [double j, jPrime, y, yPrime]. *)
Record SolutionPair : Type := mkSolutionPair {
  j : double;
  jPrime : double;
  y : double;
  yPrime : double
}.

(** [SolutionPair (double j, double jPrime, double y, double yPrime)]; the
    default constructor, which leaves the four fields unset, is not
    modelled. *)
Definition SolutionPair_new (j jPrime y yPrime : double) : SolutionPair :=
  mkSolutionPair j jPrime y yPrime.

(** The four getters: [inline double FirstSolutionValue() { return j; }]
    and its siblings. *)
Definition FirstSolutionValue (p : SolutionPair) : double := j p.
Definition FirstSolutionDerivative (p : SolutionPair) : double := jPrime p.
Definition SecondSolutionValue (p : SolutionPair) : double := y p.
Definition SecondSolutionDerivative (p : SolutionPair) : double := yPrime p.

(** The four public overloads that take a value:
    [inline void FirstSolutionValue(double value) { j = value; }]
    and its siblings. *)
Definition set_FirstSolutionValue (value : double) (p : SolutionPair) : SolutionPair :=
  mkSolutionPair value (jPrime p) (y p) (yPrime p).
Definition set_FirstSolutionDerivative (value : double) (p : SolutionPair) : SolutionPair :=
  mkSolutionPair (j p) value (y p) (yPrime p).
Definition set_SecondSolutionValue (value : double) (p : SolutionPair) : SolutionPair :=
  mkSolutionPair (j p) (jPrime p) value (yPrime p).
Definition set_SecondSolutionDerivative (value : double) (p : SolutionPair) : SolutionPair :=
  mkSolutionPair (j p) (jPrime p) (y p) value.

(** The member functions of the public interface that act on an existing
    [SolutionPair]. *)
Inductive member : Type :=
| get_FirstSolutionValue
| get_FirstSolutionDerivative
| get_SecondSolutionValue
| get_SecondSolutionDerivative
| put_FirstSolutionValue (value : double)
| put_FirstSolutionDerivative (value : double)
| put_SecondSolutionValue (value : double)
| put_SecondSolutionDerivative (value : double).

Definition is_getter (op : member) : bool :=
  match op with
  | get_FirstSolutionValue | get_FirstSolutionDerivative
  | get_SecondSolutionValue | get_SecondSolutionDerivative => true
  | _ => false
  end.

(** A call [p.op(...)]: what it returns, if anything, and [p] after it. *)
Definition call (op : member) (p : SolutionPair) : option double * SolutionPair :=
  match op with
  | get_FirstSolutionValue => (Some (FirstSolutionValue p), p)
  | get_FirstSolutionDerivative => (Some (FirstSolutionDerivative p), p)
  | get_SecondSolutionValue => (Some (SecondSolutionValue p), p)
  | get_SecondSolutionDerivative => (Some (SecondSolutionDerivative p), p)
  | put_FirstSolutionValue v => (None, set_FirstSolutionValue v p)
  | put_FirstSolutionDerivative v => (None, set_FirstSolutionDerivative v p)
  | put_SecondSolutionValue v => (None, set_SecondSolutionValue v p)
  | put_SecondSolutionDerivative v => (None, set_SecondSolutionDerivative v p)
  end.

(** The four stored fields, in the order of the declaration. *)
Definition fields (p : SolutionPair) : list double :=
  [j p; jPrime p; y p; yPrime p].

(** The position in [fields] a member function reads or writes. *)
Definition slot (op : member) : nat :=
  match op with
  | get_FirstSolutionValue | put_FirstSolutionValue _ => 0
  | get_FirstSolutionDerivative | put_FirstSolutionDerivative _ => 1
  | get_SecondSolutionValue | put_SecondSolutionValue _ => 2
  | get_SecondSolutionDerivative | put_SecondSolutionDerivative _ => 3
  end%nat.

Definition argument (op : member) : option double :=
  match op with
  | put_FirstSolutionValue v | put_FirstSolutionDerivative v
  | put_SecondSolutionValue v | put_SecondSolutionDerivative v => Some v
  | _ => None
  end.

(** The doubles 1.0 .. 5.0 of the examples. *)
Definition two : double := pow2 1.
Definition three : double := S754_finite false 6755399441055744 (-51).
Definition four : double := pow2 2.
Definition five : double := S754_finite false 5629499534213120 (-50).

(** ** Top-level dispatch *)

Section Dispatch.

(** The choice and combination of the regimes for a valid triple. *)
Variables F_regimes G_regimes : Z -> double -> double -> outcome double.

(** Modelled from the spec: the bodies of [CoulombF] and [CoulombG] are
    missing (they are in meta_numerics.cc); the header documents
    "exception: L or rho is negative". The dispatch "validates L >= 0 and
    rho >= 0, raising a domain error otherwise", and then chooses among
    the regimes. *)
Definition CoulombF (L : Z) (eta rho : double) : outcome double :=
  if L <? 0 then Throws (Domain_error L rho)
  else if lt rho zero then Throws (Domain_error L rho)
  else F_regimes L eta rho.

(** Modelled from the spec: [CoulombG] validates its arguments as
    [CoulombF] does ("both fail with a domain error when L < 0 or
    rho < 0"). *)
Definition CoulombG (L : Z) (eta rho : double) : outcome double :=
  if L <? 0 then Throws (Domain_error L rho)
  else if lt rho zero then Throws (Domain_error L rho)
  else G_regimes L eta rho.

End Dispatch.

Definition is_Domain_error {A : Type} (o : outcome A) : bool :=
  match o with
  | Throws (Domain_error _ _) => true
  | _ => false
  end.

Definition returns_no_value {A : Type} (o : outcome A) : bool :=
  match o with
  | Returns _ => false
  | Throws _ => true
  end.

(** The regimes of the examples: every valid triple evaluates to zero. *)
Definition zero_regimes (L : Z) (eta rho : double) : outcome double :=
  Returns zero.

(** ** Sequences of calls *)

(** The calls [p.op1(...); p.op2(...); ...] on one [SolutionPair], in
    turn. *)
Definition calls_in_turn (ops : list member) (p : SolutionPair) : SolutionPair :=
  fold_left (fun q op => snd (call op q)) ops p.

(** The value the last setter of the field at position [i] was given, if
    one of the calls is a setter of that field. *)
Fixpoint last_written (i : nat) (ops : list member) : option double :=
  match ops with
  | [] => None
  | op :: ops' =>
      match last_written i ops' with
      | Some v => Some v
      | None => if Nat.eqb (slot op) i then argument op else None
      end
  end.

(** The four setters and a getter, one field set twice. *)
Definition all_four : list member :=
  [put_SecondSolutionDerivative four; put_FirstSolutionValue five;
   put_FirstSolutionDerivative two; get_FirstSolutionValue;
   put_SecondSolutionValue three; put_FirstSolutionValue one].

(** The calls [s.set_accuracy(v1); s.set_accuracy(v2); ...] on one
    stepper, in turn, each throw caught. *)
Definition set_accuracies (values : list double) (s : OdeStepper) : OdeStepper :=
  fold_left (fun s value => snd (set_accuracy value s)) values s.

(** The guard of [set_accuracy] lets the value through. *)
Definition accepted (value : double) : bool :=
  negb (lt value MaxAccuracy || ge value one).

(** The last of the values that the guard lets through, if there is one. *)
Fixpoint last_accepted (values : list double) : option double :=
  match values with
  | [] => None
  | value :: values' =>
      match last_accepted values' with
      | Some v => Some v
      | None => if accepted value then Some value else None
      end
  end.

(** ** The Bernoulli numbers *)

(** A decimal literal whose value is the integer [z], as [8553103.0]: the
    nearest double, which is [z] itself below 2^53. *)
Definition literal (z : Z) : double := binary_normalize prec emax z 0 false.

(** The division [x / y] of two doubles. *)
Definition quotient (x y : double) : double := SFdiv prec emax x y.

(** [[
      const std::vector<double> Bernoulli = { 1.0, 1.0 / 6.0,
        -1.0 / 30.0, 1.0 / 42.0, -1.0 / 30.0, 5.0 / 66.0, -691.0 / 2730.0,
        7.0 / 6.0, -3617.0 / 510.0, 43867.0 / 798.0, -174611.0 / 330.0,
        854513.0 / 138.0, -236364091.0 / 2730.0, 8553103.0 / 6.0,
        -23749461029.0 / 870.0, 8615841276005.0 / 14322.0 };
    ]]
    "the even Bernoulli numbers B_2n = Bernoulli[n]". *)
Definition Bernoulli : list double :=
  [ literal 1; quotient (literal 1) (literal 6);
    quotient (SFopp (literal 1)) (literal 30);
    quotient (literal 1) (literal 42);
    quotient (SFopp (literal 1)) (literal 30);
    quotient (literal 5) (literal 66);
    quotient (SFopp (literal 691)) (literal 2730);
    quotient (literal 7) (literal 6);
    quotient (SFopp (literal 3617)) (literal 510);
    quotient (literal 43867) (literal 798);
    quotient (SFopp (literal 174611)) (literal 330);
    quotient (literal 854513) (literal 138);
    quotient (SFopp (literal 236364091)) (literal 2730);
    quotient (literal 8553103) (literal 6);
    quotient (SFopp (literal 23749461029)) (literal 870);
    quotient (literal 8615841276005) (literal 14322) ].

(** The rational number a finite double stands for (0 for the others). *)
Definition to_Q (x : double) : Q :=
  match x with
  | S754_finite s m e => (inject_Z (cond_Zopp s (Zpos m)) * Qpower 2 e)%Q
  | _ => 0%Q
  end.

(** Row [n] of Pascal's triangle: the binomial coefficients C(n, 0), ...,
    C(n, n). *)
Fixpoint add_rows (r1 r2 : list Z) : list Z :=
  match r1, r2 with
  | a :: r1', b :: r2' => (a + b) :: add_rows r1' r2'
  | _, _ => []
  end.

Fixpoint pascal_row (n : nat) : list Z :=
  match n with
  | O => [1]
  | S n' => let r := pascal_row n' in add_rows (0 :: r) (r ++ [0])
  end.

(** The sum of [C(n, k) * b_k] over the [b_k] given, [k] from 0. *)
Fixpoint weighted_sum (row : list Z) (bs : list Q) : Q :=
  match row, bs with
  | c :: row', b :: bs' => (inject_Z c * b + weighted_sum row' bs')%Q
  | _, _ => 0%Q
  end.

(** The exact Bernoulli numbers, by their recurrence: B_0 = 1 and, for
    m >= 1, the sum of C(m + 1, k) * B_k over k = 0 .. m is 0. *)
Definition bernoulli_next (bs : list Q) : Q :=
  let m := length bs in
  Qred (- weighted_sum (pascal_row (S m)) bs / inject_Z (Z.of_nat (S m)))%Q.

Fixpoint bernoulli_upto (n : nat) : list Q :=
  match n with
  | O => [1%Q]
  | S n' => let bs := bernoulli_upto n' in bs ++ [bernoulli_next bs]
  end.

Definition bernoulli_number (m : nat) : Q := nth m (bernoulli_upto 30) 0%Q.

(** The left-hand side of the recurrence at [m]. *)
Definition recurrence_sum (m : nat) : Q :=
  weighted_sum (pascal_row (S m)) (map bernoulli_number (seq 0 (S m))).

(** [x] is within half a unit in the last place of [q]: a relative error of
    at most 2^-53. *)
Definition close (x : double) (q : Q) : bool :=
  Qle_bool (Qabs (to_Q x - q)) (Qabs q * Qpower 2 (-53)).

(** ** Event: the indexed accessors (marley/Event.hh) *)

(** How [std::vector::at] ends: with the element, or with
    [std::out_of_range]. *)
Inductive at_outcome (A : Type) : Type :=
| At (a : A)
| out_of_range.

Arguments At {A} a.
Arguments out_of_range {A}.

(** [v.at(idx)], with [idx] a [size_t]. *)
Definition vector_at {A : Type} (v : list A) (idx : N) : at_outcome A :=
  match nth_error v (N.to_nat idx) with
  | Some a => At a
  | None => out_of_range
  end.

(** [v.size()] *)
Definition vector_size {A : Type} (v : list A) : N := N.of_nat (length v).

Section EventModel.

(** The [Particle] and [Level] objects an event owns, which its vectors
    hold by pointer and its accessors hand out by reference, and the
    [Parity] class; none of the three is declared in this header. *)
Variables Particle Level Parity : Type.

(** The protected members of [class Event]. *)
Record Event : Type := mkEvent {
  initial_particles_ : list Particle;
  final_particles_ : list Particle;
  cascade_levels_ : list Level;
  Ex_ : double;
  twoJ_ : Z;
  parity_ : Parity
}.

(** [get_initial_particles() const { return initial_particles_; }] *)
Definition get_initial_particles (e : Event) : list Particle :=
  initial_particles_ e.

(** [get_final_particles() const { return final_particles_; }] *)
Definition get_final_particles (e : Event) : list Particle :=
  final_particles_ e.

(** [initial_particle_count() const { return initial_particles_.size(); }] *)
Definition initial_particle_count (e : Event) : N :=
  vector_size (initial_particles_ e).

(** [final_particle_count() const { return final_particles_.size(); }] *)
Definition final_particle_count (e : Event) : N :=
  vector_size (final_particles_ e).

(** [initial_particle( size_t idx ) const
      { return *initial_particles_.at( idx ); }] *)
Definition initial_particle (idx : N) (e : Event) : at_outcome Particle :=
  vector_at (initial_particles_ e) idx.

(** [final_particle( size_t idx ) const
      { return *final_particles_.at( idx ); }] *)
Definition final_particle (idx : N) (e : Event) : at_outcome Particle :=
  vector_at (final_particles_ e) idx.

End EventModel.

Arguments initial_particle {Particle Level Parity} idx e.
Arguments final_particle {Particle Level Parity} idx e.
Arguments initial_particle_count {Particle Level Parity} e.
Arguments final_particle_count {Particle Level Parity} e.
Arguments get_initial_particles {Particle Level Parity} e.
Arguments get_final_particles {Particle Level Parity} e.

(** Turns a goal on [Z.compare] into the order it states. *)
Ltac order_goal :=
  cbn [cond_Zopp];
  lazymatch goal with
  | |- (?a ?= ?b) = Lt => change (a < b)
  | |- (?a ?= ?b) = Gt => change (a > b)
  end.

(** * Properties *)

(** ** The order of the doubles *)

Lemma digits2_pos_bounds (m : positive) :
  2 ^ (Zpos (digits2_pos m) - 1) <= Zpos m < 2 ^ Zpos (digits2_pos m).
Proof.
  induction m as [p IH | p IH | ]; simpl digits2_pos.
  - rewrite Pos2Z.inj_succ, Z.pow_succ_r by lia.
    replace (Z.succ (Zpos (digits2_pos p)) - 1)
      with (Z.succ (Zpos (digits2_pos p) - 1)) by lia.
    rewrite Z.pow_succ_r by lia. lia.
  - rewrite Pos2Z.inj_succ, Z.pow_succ_r by lia.
    replace (Z.succ (Zpos (digits2_pos p)) - 1)
      with (Z.succ (Zpos (digits2_pos p) - 1)) by lia.
    rewrite Z.pow_succ_r by lia. lia.
  - simpl. lia.
Qed.

(** A finite binary64 datum has its exponent in [-1074, 971] and fewer than
    54 mantissa bits, all 53 of them unless it is subnormal. *)
Lemma bounded_inv (m : positive) (e : Z) :
  bounded prec emax m e = true ->
  -1074 <= e <= 971 /\ Zpos m < 2 ^ 53 /\ (e = -1074 \/ 2 ^ 52 <= Zpos m).
Proof.
  unfold bounded, canonical_mantissa, fexp, emin, prec, emax.
  intros H. apply andb_true_iff in H. destruct H as [Hc He].
  apply Z.eqb_eq in Hc. apply Z.leb_le in He.
  pose proof (digits2_pos_bounds m) as [Hlo Hhi].
  set (d := Zpos (digits2_pos m)) in *.
  assert (Hd : d <= 53) by lia.
  split; [lia|]. split.
  - apply Z.lt_le_trans with (2 ^ d); [exact Hhi|].
    apply Z.pow_le_mono_r; lia.
  - destruct (Z.eq_dec e (-1074)) as [->|Hne]; [now left|right].
    assert (Hd53 : d = 53) by lia. rewrite Hd53 in Hlo. exact Hlo.
Qed.

Lemma magnitude_pos (m : positive) (e : Z) :
  -1074 <= e -> 0 < Zpos m * 2 ^ (e + 1074).
Proof.
  intros He. apply Z.mul_pos_pos; [lia|]. apply Z.pow_pos_nonneg; lia.
Qed.

Lemma magnitude_lt_infinity (m : positive) (e : Z) :
  bounded prec emax m e = true -> Zpos m * 2 ^ (e + 1074) < 2 ^ 2100.
Proof.
  intros H. destruct (bounded_inv m e H) as (He & Hm & _).
  assert (Hp : 2 ^ (e + 1074) <= 2 ^ 2045) by (apply Z.pow_le_mono_r; lia).
  assert (H0 : 0 < 2 ^ (e + 1074)) by (apply Z.pow_pos_nonneg; lia).
  replace (2 ^ 2100) with (2 ^ 55 * 2 ^ 2045)
    by (rewrite <- Z.pow_add_r by lia; reflexivity).
  assert (H1 : Z.pos m * 2 ^ (e + 1074) <= 2 ^ 53 * 2 ^ 2045).
  { apply Z.mul_le_mono_nonneg; lia. }
  assert (H2 : 2 ^ 53 * 2 ^ 2045 < 2 ^ 55 * 2 ^ 2045).
  { apply Z.mul_lt_mono_pos_r; [apply Z.pow_pos_nonneg; lia | lia]. }
  lia.
Qed.

(** Between two finite doubles, the smaller exponent is the smaller
    magnitude. *)
Lemma magnitude_lt (m1 m2 : positive) (e1 e2 : Z) :
  bounded prec emax m1 e1 = true -> bounded prec emax m2 e2 = true ->
  e1 < e2 -> Zpos m1 * 2 ^ (e1 + 1074) < Zpos m2 * 2 ^ (e2 + 1074).
Proof.
  intros H1 H2 Hlt.
  destruct (bounded_inv m1 e1 H1) as (He1 & Hm1 & _).
  destruct (bounded_inv m2 e2 H2) as (He2 & _ & [Hsub|Hm2]);
    [exfalso; clear - Hlt He1 Hsub; lia|].
  replace (e2 + 1074) with ((e2 - e1) + (e1 + 1074)) by lia.
  rewrite (Z.pow_add_r 2 (e2 - e1) (e1 + 1074)) by lia.
  assert (HP : 0 < 2 ^ (e1 + 1074)) by (apply Z.pow_pos_nonneg; lia).
  assert (HQ : 2 ^ 1 <= 2 ^ (e2 - e1)) by (apply Z.pow_le_mono_r; lia).
  set (P := 2 ^ (e1 + 1074)) in *. set (Q := 2 ^ (e2 - e1)) in *.
  change (2 ^ 1) with 2 in HQ.
  assert (Hq : 2 ^ 53 <= Zpos m2 * Q).
  { change (2 ^ 53) with (2 ^ 52 * 2). apply Z.mul_le_mono_nonneg; lia. }
  rewrite Z.mul_assoc. apply Z.mul_lt_mono_pos_r; lia.
Qed.

(** The IEEE comparison of two doubles that are not NaN is the comparison
    of their values. *)
Lemma compare_scaled (x y : double) :
  is_double x = true -> is_double y = true ->
  is_nan x = false -> is_nan y = false ->
  SFcompare x y = Some (scaled x ?= scaled y).
Proof.
  unfold is_double.
  destruct x as [sx|sx| |sx mx ex], y as [sy|sy| |sy my ey];
    simpl valid_binary; simpl is_nan; intros Hx Hy Nx Ny; try discriminate;
    cbn [SFcompare scaled].
  - reflexivity.
  - destruct sy; reflexivity.
  - destruct (bounded_inv my ey Hy) as (He & _).
    pose proof (magnitude_pos my ey (proj1 He)) as Hp.
    f_equal. symmetry. destruct sy; order_goal; lia.
  - destruct sx; reflexivity.
  - destruct sx, sy; reflexivity.
  - pose proof (magnitude_lt_infinity my ey Hy) as Hlt.
    destruct (bounded_inv my ey Hy) as (He & _).
    pose proof (magnitude_pos my ey (proj1 He)) as Hp.
    f_equal. symmetry. destruct sx, sy; order_goal; lia.
  - destruct (bounded_inv mx ex Hx) as (He & _).
    pose proof (magnitude_pos mx ex (proj1 He)) as Hp.
    f_equal. symmetry. destruct sx; order_goal; lia.
  - pose proof (magnitude_lt_infinity mx ex Hx) as Hlt.
    destruct (bounded_inv mx ex Hx) as (He & _).
    pose proof (magnitude_pos mx ex (proj1 He)) as Hp.
    f_equal. symmetry. destruct sx, sy; order_goal; lia.
  - destruct (bounded_inv mx ex Hx) as (Hex & _).
    destruct (bounded_inv my ey Hy) as (Hey & _).
    pose proof (magnitude_pos mx ex (proj1 Hex)) as Hpx.
    pose proof (magnitude_pos my ey (proj1 Hey)) as Hpy.
    f_equal. symmetry.
    destruct sx, sy; cbn [cond_Zopp].
    + rewrite Z.compare_opp.
      destruct (Z.compare_spec ex ey) as [Heq|Hlt|Hgt].
      * subst ey. rewrite <- Zmult_compare_compat_r by lia.
        rewrite Pos.compare_cont_spec.
        change (Z.pos my ?= Z.pos mx) with (my ?= mx)%positive.
        rewrite (Pos.compare_antisym mx my).
        destruct (mx ?= my)%positive; reflexivity.
      * apply Z.compare_gt_iff. apply magnitude_lt; assumption.
      * apply Z.compare_lt_iff. apply magnitude_lt; assumption.
    + order_goal; lia.
    + order_goal; lia.
    + destruct (Z.compare_spec ex ey) as [Heq|Hlt|Hgt].
      * subst ey. rewrite <- Zmult_compare_compat_r by lia.
        rewrite Pos.compare_cont_spec.
        change (Z.pos mx ?= Z.pos my) with (mx ?= my)%positive.
        destruct (mx ?= my)%positive; reflexivity.
      * apply Z.compare_lt_iff. apply magnitude_lt; assumption.
      * apply Z.compare_gt_iff. apply magnitude_lt; assumption.
Qed.

Lemma SFcompare_antisym (x y : double) :
  SFcompare y x = option_map CompOpp (SFcompare x y).
Proof.
  destruct x as [sx|sx| |sx mx ex], y as [sy|sy| |sy my ey];
    cbn [SFcompare option_map];
    try reflexivity;
    try (destruct sx; reflexivity); try (destruct sy; reflexivity);
    try (destruct sx, sy; reflexivity).
  destruct sx, sy; try reflexivity;
    rewrite (Z.compare_antisym ex ey);
    destruct (ex ?= ey); cbn [CompOpp]; try reflexivity;
    rewrite (Pos.compare_cont_antisym mx my Eq); reflexivity.
Qed.

Lemma SFcompare_None (x y : double) :
  SFcompare x y = None <-> is_nan x = true \/ is_nan y = true.
Proof.
  destruct x as [sx|sx| |sx mx ex], y as [sy|sy| |sy my ey];
    cbn [SFcompare is_nan];
    split; intros H; try discriminate; try tauto;
    try (destruct H; discriminate).
Qed.

(** Away from NaN, [x >= y] is the negation of [x < y]. *)
Lemma ge_negb_lt (x y : double) :
  is_nan x = false -> is_nan y = false -> ge x y = negb (lt x y).
Proof.
  intros Nx Ny. unfold ge, lt, SFleb, SFltb. rewrite (SFcompare_antisym x y).
  destruct (SFcompare x y) as [c|] eqn:E.
  - destruct c; reflexivity.
  - apply SFcompare_None in E. destruct E; congruence.
Qed.

Lemma le_negb_lt (x y : double) :
  is_nan x = false -> is_nan y = false -> le x y = negb (lt y x).
Proof. intros Nx Ny. exact (ge_negb_lt y x Ny Nx). Qed.

Lemma lt_scaled (x y : double) :
  is_double x = true -> is_double y = true ->
  is_nan x = false -> is_nan y = false ->
  lt x y = (scaled x <? scaled y).
Proof.
  intros Vx Vy Nx Ny. unfold lt, SFltb.
  rewrite (compare_scaled x y Vx Vy Nx Ny).
  unfold Z.ltb. destruct (scaled x ?= scaled y); reflexivity.
Qed.

Lemma le_scaled (x y : double) :
  is_double x = true -> is_double y = true ->
  is_nan x = false -> is_nan y = false ->
  le x y = (scaled x <=? scaled y).
Proof.
  intros Vx Vy Nx Ny. unfold le, SFleb.
  rewrite (compare_scaled x y Vx Vy Nx Ny).
  unfold Z.leb. destruct (scaled x ?= scaled y); reflexivity.
Qed.

(** [sign] returns -1, 0 or 1. *)
Lemma sign_values (val : double) : sign val = -1 \/ sign val = 0 \/ sign val = 1.
Proof.
  unfold sign. destruct (lt zero val), (lt val zero); cbn; auto.
Qed.

(** ** The accuracy setter *)

(** [std::pow(2.0, -49)] and [1.0] are binary64 values: 2^-49 is 1.0 scaled
    by [ldexp], and their values are 2^1025 and 2^1074 units of 2^-1074. *)
Lemma MaxAccuracy_value :
  is_double MaxAccuracy = true /\ is_double one = true
  /\ MaxAccuracy = SFldexp prec emax (SFone prec emax) (-49)
  /\ one = SFone prec emax
  /\ scaled MaxAccuracy = 2 ^ 1025 /\ scaled one = 2 ^ 1074.
Proof. repeat split. Qed.

Lemma set_accuracy_throws (value : double) (s : OdeStepper) :
  set_accuracy value s = (Throws (Invalid_accuracy_value value), s)
  <-> lt value MaxAccuracy = true \/ ge value one = true.
Proof.
  unfold set_accuracy.
  destruct (lt value MaxAccuracy || ge value one) eqn:E.
  - apply orb_true_iff in E. tauto.
  - apply orb_false_iff in E. destruct E as [E1 E2].
    split; [discriminate | intros [H|H]; congruence].
Qed.

Lemma set_accuracy_returns (value : double) (s : OdeStepper) :
  set_accuracy value s = (Returns tt, with_accuracy value s)
  <-> lt value MaxAccuracy = false /\ ge value one = false.
Proof.
  unfold set_accuracy.
  destruct (lt value MaxAccuracy || ge value one) eqn:E.
  - apply orb_true_iff in E.
    split; [discriminate | intros [H1 H2]; destruct E; congruence].
  - apply orb_false_iff in E. tauto.
Qed.

(** For a value that is not NaN, the guard lets through the half-open
    interval. *)
Lemma guard_half_open (value : double) :
  is_nan value = false ->
  (lt value MaxAccuracy = false /\ ge value one = false
   <-> in_half_open_interval value = true).
Proof.
  intros N. unfold in_half_open_interval.
  rewrite (le_negb_lt MaxAccuracy value) by (assumption || reflexivity).
  rewrite (ge_negb_lt value one) by (assumption || reflexivity).
  rewrite andb_true_iff, negb_true_iff, negb_false_iff. tauto.
Qed.

(** The half-open interval, on the values: 2^-49 <= value < 1. *)
Lemma half_open_scaled (value : double) :
  is_double value = true -> is_nan value = false ->
  (in_half_open_interval value = true
   <-> scaled MaxAccuracy <= scaled value < scaled one).
Proof.
  intros V N. unfold in_half_open_interval.
  rewrite (le_scaled MaxAccuracy value) by (assumption || reflexivity).
  rewrite (lt_scaled value one) by (assumption || reflexivity).
  rewrite andb_true_iff, Z.leb_le, Z.ltb_lt. tauto.
Qed.

(** C7, the claim as stated fails at the lower bound: 2^-49 is not inside
    the open interval (2^-49, 1), yet [set_accuracy] accepts it, raises
    nothing and stores it. *)
Lemma set_accuracy_boundary_accepted :
  is_double MaxAccuracy = true
  /\ in_open_interval MaxAccuracy = false
  /\ set_accuracy MaxAccuracy stepper0
     = (Returns tt, with_accuracy MaxAccuracy stepper0)
  /\ accuracy (snd (set_accuracy MaxAccuracy stepper0)) = MaxAccuracy.
Proof. repeat split. Qed.

(** C7, amended: setting the accuracy throws the invalid-accuracy error,
    leaving the stepper as it was, exactly when [value < 2^-49] or
    [value >= 1.0]; otherwise it returns with the accuracy field set to the
    value and every other field unchanged. For a value that is not NaN the
    accepted values are exactly those of the half-open interval
    [2^-49, 1), the bound 2^-49 included (a NaN fails both comparisons and
    is stored). *)
Theorem set_accuracy_half_open (value : double) (s : OdeStepper) :
  (set_accuracy value s = (Throws (Invalid_accuracy_value value), s)
     <-> lt value MaxAccuracy = true \/ ge value one = true)
  /\ (set_accuracy value s = (Returns tt, with_accuracy value s)
     <-> lt value MaxAccuracy = false /\ ge value one = false)
  /\ (is_nan value = false ->
      (lt value MaxAccuracy = false /\ ge value one = false
         <-> in_half_open_interval value = true))
  /\ (is_double value = true -> is_nan value = false ->
      (in_half_open_interval value = true
         <-> scaled MaxAccuracy <= scaled value < scaled one))
  /\ (is_nan value = true ->
      set_accuracy value s = (Returns tt, with_accuracy value s)).
Proof.
  split; [apply set_accuracy_throws|].
  split; [apply set_accuracy_returns|].
  split; [apply guard_half_open|].
  split; [apply half_open_scaled|].
  intros N. destruct value; try discriminate N. reflexivity.
Qed.

(** At 1/2: accepted, and inside [2^-49, 1) on the values. *)
Lemma set_accuracy_half_open_witness :
  set_accuracy (pow2 (-1)) stepper0
  = (Returns tt, with_accuracy (pow2 (-1)) stepper0)
  /\ scaled MaxAccuracy <= scaled (pow2 (-1)) < scaled one.
Proof.
  destruct (set_accuracy_half_open (pow2 (-1)) stepper0)
    as (_ & Hret & _ & Hval & _).
  split.
  - apply Hret. split; reflexivity.
  - apply (Hval eq_refl eq_refl). reflexivity.
Defined.

(** ** SolutionPair *)

(** The doubles of the examples: 1 + 2 = 3 and 1 + 4 = 5. *)
Lemma examples_are_doubles :
  forallb is_double [one; two; three; four; five] = true
  /\ SFadd prec emax one two = three
  /\ SFadd prec emax one four = five.
Proof. repeat split. Qed.

(** C8, the claim as stated fails: on the pair built from 1, 2, 3, 4 the
    public member [FirstSolutionValue(5.0)] replaces the stored [j]. *)
Lemma SolutionPair_setter_changes_field :
  let p := SolutionPair_new one two three four in
  fields p = [one; two; three; four]
  /\ fields (snd (call (put_FirstSolutionValue five) p))
     = [five; two; three; four]
  /\ fields (snd (call (put_FirstSolutionValue five) p)) <> fields p.
Proof. repeat split. discriminate. Qed.

(** C8, amended: a [SolutionPair] built from four doubles stores them in
    order; each of the four getters returns its stored field and leaves the
    pair as it was; each of the four public setters returns nothing,
    overwrites exactly its own field with the value given, and leaves the
    other three fields as they were. *)
Theorem SolutionPair_members_frame (op : member) (p : SolutionPair) :
  (forall a b c d, fields (SolutionPair_new a b c d) = [a; b; c; d])
  /\ match argument op with
     | None => call op p = (nth_error (fields p) (slot op), p)
     | Some v =>
         fst (call op p) = None
         /\ forall i : nat,
              nth_error (fields (snd (call op p))) i =
              if Nat.eqb i (slot op) then Some v else nth_error (fields p) i
     end.
Proof.
  split; [reflexivity|].
  destruct op; cbn [argument call slot fst snd]; try reflexivity;
    (split; [reflexivity|]);
    intros [|[|[|[|i]]]]; reflexivity.
Qed.

(** ** Dispatch *)

(** C2: whatever eta is, when [L < 0] or [rho < 0] both [CoulombF] and
    [CoulombG] fail with the domain error and return no value, whatever the
    regimes would compute; in particular [CoulombF(-1, 0.0, 1.0)] and
    [CoulombF(0, 0.0, -1.0)] fail with the domain error. *)
Theorem Coulomb_domain_error
  (F_regimes G_regimes : Z -> double -> double -> outcome double) :
  (forall (L : Z) (eta rho : double),
      L < 0 \/ lt rho zero = true ->
      CoulombF F_regimes L eta rho = Throws (Domain_error L rho)
      /\ CoulombG G_regimes L eta rho = Throws (Domain_error L rho))
  /\ is_Domain_error (CoulombF F_regimes (-1) zero one) = true
  /\ returns_no_value (CoulombF F_regimes (-1) zero one) = true
  /\ is_Domain_error (CoulombF F_regimes 0 zero (SFopp one)) = true
  /\ returns_no_value (CoulombF F_regimes 0 zero (SFopp one)) = true.
Proof.
  split; [|repeat split].
  intros L eta rho H. unfold CoulombF, CoulombG.
  destruct (L <? 0) eqn:EL; [split; reflexivity|].
  destruct H as [H|H]; [apply Z.ltb_lt in H; congruence|].
  rewrite H. split; reflexivity.
Qed.

(** At L = -3 and at rho = -2, over regimes that would return zero. *)
Lemma Coulomb_domain_error_witness :
  (CoulombF zero_regimes (-3) one two = Throws (Domain_error (-3) two)
   /\ CoulombG zero_regimes (-3) one two = Throws (Domain_error (-3) two))
  /\ (CoulombF zero_regimes 0 one (SFopp two)
        = Throws (Domain_error 0 (SFopp two))
      /\ CoulombG zero_regimes 0 one (SFopp two)
        = Throws (Domain_error 0 (SFopp two)))
  /\ CoulombF zero_regimes 0 one two = Returns zero.
Proof.
  split; [|split; [|reflexivity]].
  - exact (proj1 (Coulomb_domain_error zero_regimes zero_regimes)
             (-3) one two (or_introl eq_refl)).
  - exact (proj1 (Coulomb_domain_error zero_regimes zero_regimes)
             0 one (SFopp two) (or_intror eq_refl)).
Defined.

(** ** The evaluation counter *)












(** An [Evaluate] on a stepper whose [RightHandSide] is empty throws
    [std::bad_function_call] with the counter already incremented. *)
Lemma Evaluate_empty_function :
  let w := mkWorld (with_RightHandSide None stepper0) [] in
  fst (Evaluate zero one w) = Bad_function_call
  /\ EvaluationCount (stepper (snd (Evaluate zero one w))) = 1
  /\ calls (snd (Evaluate zero one w)) = [(zero, one)].
Proof. repeat split. Qed.




(** ** The sign function *)

Lemma lt_zero_opp (val : double) :
  lt zero (SFopp val) = lt val zero /\ lt (SFopp val) zero = lt zero val.
Proof. destruct val as [s|s| |s m e]; try destruct s; split; reflexivity. Qed.

(** X1: [sign] at [double] is the sign of the value: 1 for a positive double,
    -1 for a negative one and 0 for the two zeros; it is 0 for NaN; and
    [sign(-val) = -sign(val)]. *)
Theorem sign_of_value (val : double) :
  (is_nan val = true -> sign val = 0)
  /\ (is_double val = true -> is_nan val = false ->
      sign val = Z.sgn (scaled val))
  /\ sign (SFopp val) = - sign val.
Proof.
  split; [|split].
  - destruct val; try discriminate. reflexivity.
  - intros V N. unfold sign.
    rewrite (lt_scaled zero val), (lt_scaled val zero)
      by (assumption || reflexivity).
    change (scaled zero) with 0.
    destruct (Z.ltb_spec 0 (scaled val)), (Z.ltb_spec (scaled val) 0);
      cbn [Z.b2z]; lia.
  - unfold sign. destruct (lt_zero_opp val) as [-> ->]. lia.
Qed.

(** At -3, 3 and -0. *)
Lemma sign_of_value_witness :
  sign (SFopp three) = -1 /\ sign three = 1 /\ sign (S754_zero true) = 0.
Proof.
  destruct (sign_of_value three) as (_ & H & Hopp).
  split; [rewrite Hopp, (H eq_refl eq_refl); reflexivity|].
  split; [rewrite (H eq_refl eq_refl); reflexivity|].
  exact (proj1 (proj2 (sign_of_value (S754_zero true))) eq_refl eq_refl).
Defined.

(** ** Sequences of calls on a SolutionPair *)

Lemma call_fields (op : member) (p : SolutionPair) (i : nat) :
  nth_error (fields (snd (call op p))) i
  = match (if Nat.eqb (slot op) i then argument op else None) with
    | Some v => Some v
    | None => nth_error (fields p) i
    end.
Proof.
  destruct op; destruct i as [|[|[|[|i]]]]; reflexivity.
Qed.

Lemma fields_inj (p q : SolutionPair) : fields p = fields q -> p = q.
Proof.
  destruct p, q. unfold fields. cbn. intros H. injection H as -> -> -> ->.
  reflexivity.
Qed.

(** X2: after any sequence of calls of the public members, each field holds
    the value its last setter call was given, or what it held before when
    no setter of it was called; so once each of the four setters has been
    called, the pair does not depend on what it held before (the unset
    fields of a default-constructed pair, say). *)
Theorem SolutionPair_last_write_wins (ops : list member) :
  (forall (p : SolutionPair) (i : nat),
      nth_error (fields (calls_in_turn ops p)) i
      = match last_written i ops with
        | Some v => Some v
        | None => nth_error (fields p) i
        end)
  /\ ((forall i, (i < 4)%nat -> last_written i ops <> None) ->
      forall p q : SolutionPair, calls_in_turn ops p = calls_in_turn ops q).
Proof.
  assert (H : forall (p : SolutionPair) (i : nat),
      nth_error (fields (calls_in_turn ops p)) i
      = match last_written i ops with
        | Some v => Some v
        | None => nth_error (fields p) i
        end).
  { induction ops as [|op ops IH]; intros p i; [reflexivity|].
    change (calls_in_turn (op :: ops) p)
      with (calls_in_turn ops (snd (call op p))).
    rewrite IH. cbn [last_written].
    destruct (last_written i ops); [reflexivity|]. apply call_fields. }
  split; [exact H|].
  intros Hall p q. apply fields_inj.
  apply nth_error_ext. intros i. rewrite !H.
  destruct (last_written i ops) as [v|] eqn:E; [reflexivity|].
  destruct (Nat.lt_ge_cases i 4) as [Hi|Hi].
  - exfalso. exact (Hall i Hi E).
  - transitivity (@None double); [|symmetry];
      apply nth_error_None; cbn; lia.
Qed.

(** The four setters called on two different pairs leave the same pair:
    the one built from the last values given. *)
Lemma SolutionPair_last_write_wins_witness :
  calls_in_turn all_four (SolutionPair_new five five five five)
  = calls_in_turn all_four (SolutionPair_new one two three four)
  /\ calls_in_turn all_four (SolutionPair_new five five five five)
     = SolutionPair_new one two three four.
Proof.
  split; [|reflexivity].
  apply (proj2 (SolutionPair_last_write_wins all_four)).
  intros [|[|[|[|i]]]] Hi; try (cbn; discriminate). lia.
Defined.

(** ** Sequences of calls of the accuracy setter *)

Lemma accepted_guard (value : double) (s : OdeStepper) :
  snd (set_accuracy value s)
  = if accepted value then with_accuracy value s else s.
Proof.
  unfold set_accuracy, accepted.
  destruct (lt value MaxAccuracy || ge value one); reflexivity.
Qed.

(** X3: after any sequence of [set_accuracy] calls, whose throws are caught,
    the accuracy of the stepper is the last value that passed the guard,
    and the stepper as it was when none did: a rejected value changes
    nothing, and no call changes another field. The value in force passed
    the guard. *)
Theorem set_accuracy_last_accepted (values : list double) (s : OdeStepper) :
  set_accuracies values s
  = match last_accepted values with
    | Some v => with_accuracy v s
    | None => s
    end
  /\ (forall v, last_accepted values = Some v ->
        In v values /\ lt v MaxAccuracy = false /\ ge v one = false).
Proof.
  split.
  - revert s. induction values as [|value values IH]; intros s; [reflexivity|].
    change (set_accuracies (value :: values) s)
      with (set_accuracies values (snd (set_accuracy value s))).
    rewrite IH, accepted_guard. cbn [last_accepted].
    destruct (last_accepted values) as [v|]; destruct (accepted value);
      reflexivity.
  - induction values as [|value values IH]; intros v; cbn [last_accepted];
      [discriminate|].
    destruct (last_accepted values) as [u|].
    + intros H. injection H as <-. destruct (IH u eq_refl) as (Hin & Hg).
      split; [right; exact Hin | exact Hg].
    + destruct (accepted value) eqn:E; [|discriminate].
      intros H. injection H as <-. split; [left; reflexivity|].
      unfold accepted in E. apply negb_true_iff, orb_false_iff in E. exact E.
Qed.

(** 1/2 accepted, then 2 and 2^-50 rejected: 1/2 stays in force. *)
Lemma set_accuracy_last_accepted_witness :
  accuracy (set_accuracies [pow2 (-1); two; pow2 (-50)] stepper0) = pow2 (-1)
  /\ lt (pow2 (-1)) MaxAccuracy = false /\ ge (pow2 (-1)) one = false.
Proof.
  destruct (set_accuracy_last_accepted [pow2 (-1); two; pow2 (-50)] stepper0)
    as [Heq Hv].
  split; [rewrite Heq; reflexivity|].
  exact (proj2 (Hv (pow2 (-1)) eq_refl)).
Defined.

(** ** The table of the Bernoulli numbers *)

Lemma forallb_seq (f : nat -> bool) (start len : nat) :
  forallb f (seq start len) = true ->
  forall n, (start <= n < start + len)%nat -> f n = true.
Proof.
  intros H n Hn. rewrite forallb_forall in H. apply H. apply in_seq. exact Hn.
Qed.

(** X4: the table has 16 entries, and entry [n] is the double nearest to the
    even Bernoulli number B_2n, within a relative error of 2^-53, for
    n = 0 .. 15; where the Bernoulli numbers are the rationals with B_0 = 1
    that satisfy the recurrence up to B_30. As the header notes, B_1 = -1/2
    and the other odd ones vanish. *)
Theorem Bernoulli_table :
  length Bernoulli = 16%nat
  /\ (bernoulli_number 0 == 1)%Q
  /\ (forall m, (1 <= m <= 30)%nat -> (recurrence_sum m == 0)%Q)
  /\ (bernoulli_number 1 == -1 # 2)%Q
  /\ (forall n, (1 <= n <= 14)%nat -> (bernoulli_number (2 * n + 1) == 0)%Q)
  /\ (forall n, (n < 16)%nat ->
        let x := nth n Bernoulli S754_nan in
        is_double x = true
        /\ (Qabs (to_Q x - bernoulli_number (2 * n))
             <= Qabs (bernoulli_number (2 * n)) * Qpower 2 (-53))%Q).
Proof.
  split; [reflexivity|]. split; [reflexivity|].
  split.
  { intros m Hm. apply Qeq_bool_iff.
    apply (forallb_seq (fun m => Qeq_bool (recurrence_sum m) 0) 1 30);
      [vm_compute; reflexivity | lia]. }
  split; [reflexivity|].
  split.
  { intros n Hn. apply Qeq_bool_iff.
    apply (forallb_seq (fun n => Qeq_bool (bernoulli_number (2 * n + 1)) 0) 1 14);
      [vm_compute; reflexivity | lia]. }
  intros n Hn x. subst x.
  assert (H : (is_double (nth n Bernoulli S754_nan)
               && close (nth n Bernoulli S754_nan) (bernoulli_number (2 * n)))%bool
              = true).
  { apply (forallb_seq
             (fun n => (is_double (nth n Bernoulli S754_nan)
                        && close (nth n Bernoulli S754_nan)
                                 (bernoulli_number (2 * n)))%bool) 0 16);
      [vm_compute; reflexivity | lia]. }
  apply andb_true_iff in H. destruct H as [Hd Hc].
  split; [exact Hd|]. apply Qle_bool_iff. exact Hc.
Qed.

(** ** Event: the indexed accessors *)

(** [at] throws exactly from the size on. *)
Lemma vector_at_out_of_range {A : Type} (v : list A) (idx : N) :
  vector_at v idx = out_of_range <-> (vector_size v <= idx)%N.
Proof.
  unfold vector_at, vector_size.
  destruct (nth_error v (N.to_nat idx)) as [a|] eqn:E.
  - split; [discriminate|]. intros H.
    assert (Hlt : (N.to_nat idx < length v)%nat)
      by (apply nth_error_Some; congruence).
    lia.
  - split; [|reflexivity]. intros _. apply nth_error_None in E. lia.
Qed.

(** Below the size, [at] hands out the elements in order. *)
Lemma vector_at_all {A : Type} (v : list A) :
  map (fun i => vector_at v (N.of_nat i)) (seq 0 (N.to_nat (vector_size v)))
  = map At v.
Proof.
  unfold vector_size. rewrite Nat2N.id.
  apply nth_error_ext. intros i.
  rewrite !nth_error_map, nth_error_seq.
  destruct (Nat.ltb_spec i (length v)) as [Hi|Hi].
  - cbn [option_map Nat.add]. unfold vector_at. rewrite Nat2N.id.
    destruct (nth_error v i) eqn:E; [reflexivity|].
    apply nth_error_None in E. lia.
  - rewrite (proj2 (nth_error_None v i)) by exact Hi. reflexivity.
Qed.

(** X5: [initial_particle(idx)] throws [std::out_of_range] exactly when
    [idx >= initial_particle_count()], and the indices below the count give
    the particles of [get_initial_particles()] in order, none throwing; the
    same holds of [final_particle], [final_particle_count] and
    [get_final_particles]. On an event without particles every index
    throws. *)
Theorem Event_particle_access
  (Particle Level Parity : Type) (e : Event Particle Level Parity) (idx : N) :
  (initial_particle idx e = out_of_range
     <-> (initial_particle_count e <= idx)%N)
  /\ (final_particle idx e = out_of_range
     <-> (final_particle_count e <= idx)%N)
  /\ map (fun i => initial_particle (N.of_nat i) e)
         (seq 0 (N.to_nat (initial_particle_count e)))
     = map At (get_initial_particles e)
  /\ map (fun i => final_particle (N.of_nat i) e)
         (seq 0 (N.to_nat (final_particle_count e)))
     = map At (get_final_particles e).
Proof.
  repeat split; try apply vector_at_out_of_range; apply vector_at_all.
Qed.
